(** * The dlopen demonstration program: runtime loading of libc symbols

    The development has three layers.

    - [Loader]: the interface of the platform's dynamic-linking facility
      as the program sees it (dlopen, dlsym, dlerror, dlclose, and calls
      through resolved addresses).
    - [main]: the program of [src/main.c], written in a small
      state-and-fault monad that records every loader operation and every
      call through a function pointer in a log.
    - [Platform]: one implementation of the interface, following the
      loader contract of the specification (handle life cycle, export
      tables, diagnostics). *)

From Stdlib Require Import ZArith Ascii String.
From stdpp Require Import base strings list gmap.

Local Open Scope string_scope.
Local Open Scope list_scope.

(** ** Values of the C program *)

(** Pointers ([void *], function pointers) are addresses; [NULL] is 0. *)
Abbreviation ptr := Z (only parsing).

Definition NULL : ptr := 0%Z.

(** The C test [!p]. *)
Definition is_null (p : ptr) : bool := (p =? NULL)%Z.

(** Modelled from the spec: the two exit statuses of <stdlib.h>, which the
    absent header [dlopen.h] brings in. *)
Inductive exit_status := EXIT_SUCCESS | EXIT_FAILURE.

(** Modelled from the spec: the open-mode flags of <dlfcn.h>, which the
    absent header [dlopen.h] brings in.  [RTLD_NOW] resolves all symbols
    immediately (the specification's EAGER), [RTLD_LAZY] resolves a symbol
    when needed (LAZY). *)
Inductive open_mode := RTLD_LAZY | RTLD_NOW.

(** Arguments and results of calls through resolved addresses. *)
Inductive value :=
| VPtr (p : ptr)                (* void * *)
| VSize (n : Z)                 (* size_t *)
| VInt (n : Z)                  (* int *)
| VStr (s : string)             (* a string literal *)
| VChars (s : option string)    (* char * that may be NULL *)
| VVoid.

(** One observable step of the program.  A call through [NULL] has no
    result. *)
Inductive entry :=
| EvDlopen (path : option string) (mode : open_mode) (ret : ptr)
| EvDlsym (handle : ptr) (symbol : string) (ret : ptr)
| EvDlerror (ret : option string)
| EvDlclose (handle : ptr) (ret : Z)
| EvCall (f : ptr) (args : list value) (ret : option value).

(** The outcome of running C code: it returns, or it calls through a null
    function pointer, which is undefined behaviour. *)
Inductive result (A : Type) :=
| Ok (a : A)
| NullCall.
Arguments Ok {A} a.
Arguments NullCall {A}.

(** ** The platform interface *)

(** What the program requires of its environment.  [do_call f args] is
    only consulted for [f] different from [NULL]; the code found at a
    resolved address is assumed to return. *)
Class Loader (St : Type) := {
  do_dlopen : option string -> open_mode -> St -> ptr * St;
  do_dlsym : ptr -> string -> St -> ptr * St;
  do_dlerror : St -> option string * St;
  do_dlclose : ptr -> St -> Z * St;
  do_call : ptr -> list value -> St -> value * St
}.

(** ** The monad of the program *)

Record process (St : Type) := Process { env : St; log : list entry }.
Arguments Process {St} env log.
Arguments env {St} p.
Arguments log {St} p.

Definition M (St A : Type) : Type := process St -> result A * process St.

Definition ret {St A} (a : A) : M St A := fun p => (Ok a, p).

Definition bind {St A B} (c : M St A) (k : A -> M St B) : M St B :=
  fun p =>
    match c p with
    | (Ok a, p') => k a p'
    | (NullCall, p') => (NullCall, p')
    end.

Notation "x <- c ;; k" := (bind c (fun x => k))
  (at level 100, c at next level, right associativity).

Section Program.
Context {St : Type} `{Loader St}.

(** Lift one operation of the interface, logging it with its result. *)
Definition observe {A} (op : St -> A * St) (ev : A -> entry) : M St A :=
  fun p =>
    let '(r, st) := op (env p) in
    (Ok r, Process st (log p ++ [ev r])).

Definition dlopen (path : option string) (mode : open_mode) : M St ptr :=
  observe (do_dlopen path mode) (EvDlopen path mode).

Definition dlsym (handle : ptr) (symbol : string) : M St ptr :=
  observe (do_dlsym handle symbol) (EvDlsym handle symbol).

Definition dlerror : M St (option string) :=
  observe do_dlerror EvDlerror.

Definition dlclose (handle : ptr) : M St Z :=
  observe (do_dlclose handle) (EvDlclose handle).

(** A call through the function pointer [f]. *)
Definition call (f : ptr) (args : list value) : M St value :=
  fun p =>
    if is_null f
    then (NullCall, Process (env p) (log p ++ [EvCall f args None]))
    else
      let '(r, st) := do_call f args (env p) in
      (Ok r, Process st (log p ++ [EvCall f args (Some r)])).

(** The format string of line 25, with its two line feeds. *)
Definition hello_fmt : string :=
  "Hello, World!" +:+ String "010"%char ("%s" +:+ String "010"%char "").

(** [main] of [src/main.c].  The array [libc_symbols] is uninitialised
    in C; each of its three slots is written before it is read.  The
    argument [dlerror()] of line 25 is evaluated before the call. *)
Definition main : M St exit_status :=
  libc_handler <- dlopen None RTLD_LAZY ;;
  let libc_symbols : list ptr := replicate 3 NULL in
  if is_null libc_handler then ret EXIT_FAILURE else
  r0 <- dlsym libc_handler "malloc" ;;
  let libc_symbols := <[0%nat := r0]> libc_symbols in
  r1 <- dlsym libc_handler "printf" ;;
  let libc_symbols := <[1%nat := r1]> libc_symbols in
  r2 <- dlsym libc_handler "free" ;;
  let libc_symbols := <[2%nat := r2]> libc_symbols in
  let malloc := libc_symbols !!! 0%nat in
  let printf := libc_symbols !!! 1%nat in
  let free := libc_symbols !!! 2%nat in
  msg <- dlerror ;;
  _ <- call printf [VStr hello_fmt; VChars msg] ;;
  a <- call malloc [VSize 3] ;;
  _ <- call free [a] ;;
  ret EXIT_SUCCESS.

(** One execution of the program from the environment state [st]. *)
Definition run_main (st : St) : result exit_status * process St :=
  main (Process st []).

Definition exit_of (st : St) : result exit_status := fst (run_main st).
Definition trace_of (st : St) : list entry := log (snd (run_main st)).

(** What the environment answers to the [dlopen] of line 9. *)
Definition opened (st : St) : ptr := fst (do_dlopen None RTLD_LAZY st).

End Program.

(** ** The platform's dynamic-linking facility *)

Module Platform.

(** Modelled from the spec: the error taxonomy of the loader (section 7).
    The platform primitives themselves (dlopen, dlsym, dlerror, dlclose)
    are declared through the absent header [dlopen.h]; everything in
    this module follows the contract the specification gives for them. *)
Inductive loader_error :=
| LoadError
| SymbolNotFoundError
| UseAfterCloseError.

(** Modelled from the spec: a shared object on the file system, as far
    as Open and Resolve look at it: whether it is a valid shared object
    for the platform, whether all its dependencies resolve, and its
    exported symbol table (names to non-null addresses). *)
Record shared_object := SharedObject {
  so_valid : bool;
  so_deps_resolved : bool;
  so_exports : gmap string positive
}.

(** Modelled from the spec: the state machine of a LibraryHandle
    (section 4.1). *)
Inductive handle_state := Unopened | Open | Closed.

(** Modelled from the spec: the LibraryHandle of section 3, with its
    source, its open mode and its explicit open/closed state (policy (a)
    of Close). *)
Record library_handle := LibraryHandle {
  lh_object : shared_object;
  lh_source : option string;
  lh_mode : open_mode;
  lh_state : handle_state
}.

(** Modelled from the spec: the state of the loader in one process.  The
    handle [k] (counted from 1, so that no handle is [NULL]) is entry
    [k - 1] of the handle table, which only grows.  [last_error] is the
    process-wide diagnostic, overwritten by every loader call. *)
Record loader := MkLoader {
  self_image : option shared_object;
  files : gmap string shared_object;
  handles : list library_handle;
  last_error : option loader_error;
  code : ptr -> list value -> value
}.

Definition with_handles (hs : list library_handle) (st : loader) : loader :=
  MkLoader (self_image st) (files st) hs (last_error st) (code st).

Definition with_error (e : option loader_error) (st : loader) : loader :=
  MkLoader (self_image st) (files st) (handles st) e (code st).

Definition handle_of_index (i : nat) : ptr := Z.of_nat (S i).

Definition index_of_handle (h : ptr) : option nat :=
  if (0 <? h)%Z then Some (Nat.pred (Z.to_nat h)) else None.

Definition lookup_handle (st : loader) (h : ptr) : option library_handle :=
  i ← index_of_handle h; handles st !! i.

Definition state_of (st : loader) (h : ptr) : handle_state :=
  match lookup_handle st h with
  | Some lh => lh_state lh
  | None => Unopened
  end.

(** The shared object behind a handle that is in state [Open]. *)
Definition live_object (st : loader) (h : ptr) : option shared_object :=
  match lookup_handle st h with
  | Some lh =>
      match lh_state lh with
      | Open => Some (lh_object lh)
      | _ => None
      end
  | None => None
  end.

(** The target of Open: a path, or the process's own symbol table. *)
Definition find_target (st : loader) (path : option string)
  : option shared_object :=
  match path with
  | None => self_image st
  | Some p => files st !! p
  end.

Definition loadable (mode : open_mode) (o : shared_object) : bool :=
  so_valid o &&
  match mode with
  | RTLD_NOW => so_deps_resolved o
  | RTLD_LAZY => true
  end.

(** Modelled from the spec: Open(path_or_self, mode). *)
Definition open (path : option string) (mode : open_mode) (st : loader)
  : ptr * loader :=
  match find_target st path with
  | Some o =>
      if loadable mode o
      then (handle_of_index (length (handles st)),
            with_error None
              (with_handles
                 (handles st ++ [LibraryHandle o path mode Open]) st))
      else (NULL, with_error (Some LoadError) st)
  | None => (NULL, with_error (Some LoadError) st)
  end.

(** Modelled from the spec: Resolve(handle, symbol_name). *)
Definition resolve (h : ptr) (s : string) (st : loader) : ptr * loader :=
  match live_object st h with
  | Some o =>
      match so_exports o !! s with
      | Some a => (Z.pos a, with_error None st)
      | None => (NULL, with_error (Some SymbolNotFoundError) st)
      end
  | None => (NULL, with_error (Some UseAfterCloseError) st)
  end.

Definition mark_closed (lh : library_handle) : library_handle :=
  LibraryHandle (lh_object lh) (lh_source lh) (lh_mode lh) Closed.

(** Modelled from the spec: Close(handle), policy (a): a second Close
    fails with UseAfterCloseError. *)
Definition close (h : ptr) (st : loader) : Z * loader :=
  match index_of_handle h with
  | Some i =>
      match handles st !! i with
      | Some lh =>
          match lh_state lh with
          | Open =>
              (0%Z,
               with_error None
                 (with_handles (<[i := mark_closed lh]> (handles st)) st))
          | _ => ((-1)%Z, with_error (Some UseAfterCloseError) st)
          end
      | None => ((-1)%Z, with_error (Some UseAfterCloseError) st)
      end
  | None => ((-1)%Z, with_error (Some UseAfterCloseError) st)
  end.

Definition diagnostic (e : loader_error) : string :=
  match e with
  | LoadError => "cannot open shared object"
  | SymbolNotFoundError => "undefined symbol"
  | UseAfterCloseError => "invalid handle"
  end.

(** Modelled from the spec: the last-error query; it hands out the
    diagnostic of the latest loader call and resets it. *)
Definition error (st : loader) : option string * loader :=
  (diagnostic <$> last_error st, with_error None st).

(** A call through a resolved address runs the code found there. *)
Definition invoke (f : ptr) (args : list value) (st : loader)
  : value * loader :=
  (code st f args, st).

#[global] Instance platform_loader : Loader loader := {|
  do_dlopen := open;
  do_dlsym := resolve;
  do_dlerror := error;
  do_dlclose := close;
  do_call := invoke
|}.

(** Any interleaving of loader operations between two calls. *)
Inductive request :=
| ROpen (path : option string) (mode : open_mode)
| RResolve (h : ptr) (s : string)
| RError
| RClose (h : ptr)
| RCall (f : ptr) (args : list value).

Definition serve (r : request) (st : loader) : loader :=
  match r with
  | ROpen path mode => snd (open path mode st)
  | RResolve h s => snd (resolve h s st)
  | RError => snd (error st)
  | RClose h => snd (close h st)
  | RCall f args => snd (invoke f args st)
  end.

Definition serve_all (rs : list request) (st : loader) : loader :=
  foldl (fun st r => serve r st) st rs.

(** *** Three processes *)

Definition libc_exports : gmap string positive :=
  {[ "malloc" := 4096%positive;
     "printf" := 8192%positive;
     "free" := 12288%positive ]}.

(** The code behind the three addresses: [malloc] hands out a block,
    [printf] returns a character count, [free] returns nothing. *)
Definition libc_code (f : ptr) (args : list value) : value :=
  if (f =? 4096)%Z then VPtr 65536%Z
  else if (f =? 8192)%Z then VInt 21%Z
  else VVoid.

(** A process whose own symbol table has all three symbols. *)
Definition libc_process : loader :=
  MkLoader (Some (SharedObject true true libc_exports)) ∅ [] None libc_code.

(** A process whose own symbol table lacks [printf]. *)
Definition no_printf_process : loader :=
  MkLoader (Some (SharedObject true true (delete "printf" libc_exports)))
    ∅ [] None libc_code.

(** A process whose own symbol table cannot be opened. *)
Definition no_self_process : loader :=
  MkLoader None ∅ [] None libc_code.

End Platform.


(** ** The executions of [main] *)

(** The log up to and including the [dlerror()] of line 25. *)
Definition resolved (h m p f : ptr) (e : option string) : list entry :=
  [EvDlopen None RTLD_LAZY h;
   EvDlsym h "malloc" m;
   EvDlsym h "printf" p;
   EvDlsym h "free" f;
   EvDlerror e].

Definition printf_args (e : option string) : list value :=
  [VStr hello_fmt; VChars e].

(** [main_run h x t]: the environment answered [dlopen] with [h], and the
    program ended with [x] after the log [t].  There are five kinds of
    execution: [dlopen] fails; one of the three calls goes through a null
    pointer; or the program runs to its end. *)
Inductive main_run : ptr -> result exit_status -> list entry -> Prop :=
| run_open_failed :
    main_run NULL (Ok EXIT_FAILURE) [EvDlopen None RTLD_LAZY NULL]
| run_printf_null h m f e :
    h ≠ NULL ->
    main_run h NullCall
      (resolved h m NULL f e ++ [EvCall NULL (printf_args e) None])
| run_malloc_null h p f e r :
    h ≠ NULL -> p ≠ NULL ->
    main_run h NullCall
      (resolved h NULL p f e ++
       [EvCall p (printf_args e) (Some r); EvCall NULL [VSize 3] None])
| run_free_null h m p e r a :
    h ≠ NULL -> p ≠ NULL -> m ≠ NULL ->
    main_run h NullCall
      (resolved h m p NULL e ++
       [EvCall p (printf_args e) (Some r); EvCall m [VSize 3] (Some a);
        EvCall NULL [a] None])
| run_completed h m p f e r a v :
    h ≠ NULL -> p ≠ NULL -> m ≠ NULL -> f ≠ NULL ->
    main_run h (Ok EXIT_SUCCESS)
      (resolved h m p f e ++
       [EvCall p (printf_args e) (Some r); EvCall m [VSize 3] (Some a);
        EvCall f [a] (Some v)]).

(** ** Properties of logs *)

(** How often the handle [h] is closed in a log. *)
Fixpoint close_count (h : ptr) (t : list entry) : nat :=
  match t with
  | [] => 0
  | EvDlclose h' _ :: t' => (if (h' =? h)%Z then 1 else 0) + close_count h t'
  | _ :: t' => close_count h t'
  end.

(** Every handle obtained from a successful open is closed exactly once. *)
Definition closed_exactly_once (t : list entry) : Prop :=
  forall path mode h,
    h ≠ NULL -> EvDlopen path mode h ∈ t -> close_count h t = 1%nat.

(** A loader call that reported failure by a null result. *)
Definition failed (e : entry) : bool :=
  match e with
  | EvDlopen _ _ r => is_null r
  | EvDlsym _ _ r => is_null r
  | _ => false
  end.

(** The diagnostic is only retrieved right after a failed open or
    resolve. *)
Definition diagnostic_in_error_branch (t : list entry) : Prop :=
  forall i msg,
    t !! i = Some (EvDlerror msg) ->
    exists j x, i = S j /\ t !! j = Some x /\ failed x = true.

Definition is_call (e : entry) : Prop :=
  match e with
  | EvCall _ _ _ => True
  | _ => False
  end.

(** No resolution in the log returned [NULL]. *)
Definition resolves_non_null (t : list entry) : Prop :=
  forall h s r, EvDlsym h s r ∈ t -> r ≠ NULL.

(** No call in the log goes through [NULL]. *)
Definition calls_non_null (t : list entry) : Prop :=
  forall f args r, EvCall f args r ∈ t -> f ≠ NULL.

(** The handle [h] came out of a successful open before position [i]. *)
Definition opened_before (t : list entry) (h : ptr) (i : nat) : Prop :=
  exists j path mode,
    (j < i)%nat /\ t !! j = Some (EvDlopen path mode h) /\ h ≠ NULL.

(** The handle [h] is not closed before position [i]. *)
Definition not_closed_before (t : list entry) (h : ptr) (i : nat) : Prop :=
  forall j c, (j < i)%nat -> t !! j ≠ Some (EvDlclose h c).

(** Every resolve against a handle comes after the open that returned the
    handle and before any close of it. *)
Definition operations_ordered (t : list entry) : Prop :=
  forall i h s r,
    t !! i = Some (EvDlsym h s r) ->
    opened_before t h i /\ not_closed_before t h i.

(** Every call goes through an address that was resolved from a handle
    which, at the time of the call, has been opened and not closed. *)
Definition invoked_while_open (t : list entry) : Prop :=
  forall i f args r,
    t !! i = Some (EvCall f args r) ->
    exists j h s,
      (j < i)%nat /\ t !! j = Some (EvDlsym h s f) /\
      opened_before t h j /\ not_closed_before t h i.

(** Case analysis on a position of a log whose length is known. *)
Ltac at_position i :=
  repeat (destruct i as [|i]; simpl in *; simplify_eq;
          try lia; try discriminate).

(** ** The executions of [main], characterised *)

Lemma is_null_true (p : ptr) : is_null p = true <-> p = NULL.
Proof. unfold is_null. apply Z.eqb_eq. Qed.

Lemma is_null_false (p : ptr) : is_null p = false <-> p ≠ NULL.
Proof. unfold is_null. apply Z.eqb_neq. Qed.

Section Executions.
Context {St : Type} `{Loader St}.

(** Every execution of [main] is of one of the five kinds. *)
Lemma main_run_spec (st : St) :
  main_run (opened st) (exit_of st) (trace_of st).
Proof.
  unfold opened, exit_of, trace_of, run_main, main, bind.
  unfold dlopen, dlsym, dlerror, call, observe, ret. simpl.
  destruct (do_dlopen None RTLD_LAZY st) as [h st1]. simpl.
  destruct (is_null h) eqn:Hh.
  { apply is_null_true in Hh. subst h. simpl. constructor. }
  apply is_null_false in Hh. simpl.
  destruct (do_dlsym h "malloc" st1) as [m st2]. simpl.
  destruct (do_dlsym h "printf" st2) as [p st3]. simpl.
  destruct (do_dlsym h "free" st3) as [f st4]. simpl.
  destruct (do_dlerror st4) as [e st5]. simpl.
  destruct (is_null p) eqn:Hp.
  { apply is_null_true in Hp. subst p. simpl.
    apply (run_printf_null h m f e Hh). }
  apply is_null_false in Hp. simpl.
  destruct (do_call p _ st5) as [r st6]. simpl.
  destruct (is_null m) eqn:Hm.
  { apply is_null_true in Hm. subst m. simpl.
    apply (run_malloc_null h p f e r Hh Hp). }
  apply is_null_false in Hm. simpl.
  destruct (do_call m _ st6) as [a st7]. simpl.
  destruct (is_null f) eqn:Hf.
  { apply is_null_true in Hf. subst f. simpl.
    apply (run_free_null h m p e r a Hh Hp Hm). }
  apply is_null_false in Hf. simpl.
  destruct (do_call f _ st7) as [v st8]. simpl.
  apply (run_completed h m p f e r a v Hh Hp Hm Hf).
Qed.

End Executions.

(** ** What every execution of [main] satisfies *)

Lemma main_run_no_close h x t h' : main_run h x t -> close_count h' t = 0%nat.
Proof. destruct 1; reflexivity. Qed.

Lemma main_run_first h x t :
  main_run h x t -> exists rest, t = EvDlopen None RTLD_LAZY h :: rest.
Proof. destruct 1; eexists; reflexivity. Qed.

Lemma main_run_failure h x t :
  main_run h x t ->
  h = NULL -> x = Ok EXIT_FAILURE /\ t = [EvDlopen None RTLD_LAZY NULL].
Proof. destruct 1; intros ?; by simplify_eq. Qed.

Lemma main_run_exit_failure h x t :
  main_run h x t -> x = Ok EXIT_FAILURE <-> h = NULL.
Proof. destruct 1; split; intros ?; by simplify_eq. Qed.

Lemma main_run_resolved h x t :
  main_run h x t ->
  h ≠ NULL ->
  exists m p f e r calls,
    t = resolved h m p f e ++ EvCall p (printf_args e) r :: calls /\
    Forall is_call calls.
Proof.
  destruct 1; intros Hh; try done;
    do 6 eexists; (split; [reflexivity|]); repeat constructor.
Qed.

Lemma main_run_success h x t :
  main_run h x t ->
  h ≠ NULL -> resolves_non_null t -> x = Ok EXIT_SUCCESS.
Proof.
  destruct 1; intros Hh Hr; try done; exfalso.
  - apply (Hr h "printf" NULL); [|done]. unfold resolved. set_solver.
  - apply (Hr h "malloc" NULL); [|done]. unfold resolved. set_solver.
  - apply (Hr h "free" NULL); [|done]. unfold resolved. set_solver.
Qed.

Lemma main_run_calls h x t :
  main_run h x t -> resolves_non_null t -> calls_non_null t.
Proof.
  intros Hrun Hr g args r Hin. intros ->.
  destruct Hrun; unfold resolved in *; simpl in *;
    repeat (apply elem_of_cons in Hin as [Hin|Hin]; simplify_eq);
    try (by apply elem_of_nil in Hin).
  - by apply (Hr h "printf" NULL); [set_solver|].
  - by apply (Hr h "malloc" NULL); [set_solver|].
  - by apply (Hr h "free" NULL); [set_solver|].
Qed.

Lemma main_run_null_call h x t h' s :
  main_run h x t ->
  EvDlsym h' s NULL ∈ t -> exists args, EvCall NULL args None ∈ t.
Proof.
  intros Hrun Hin.
  destruct Hrun; unfold resolved in *; simpl in *;
    repeat (apply elem_of_cons in Hin as [Hin|Hin]; simplify_eq);
    try (by apply elem_of_nil in Hin);
    try congruence;
    eexists;
    repeat first [apply list_elem_of_here | apply list_elem_of_further].
Qed.

Lemma main_run_ordered h x t : main_run h x t -> operations_ordered t.
Proof.
  intros Hrun i h' s r Hi.
  destruct Hrun; unfold resolved in *; at_position i;
    (split; [exists 0%nat, None, RTLD_LAZY; repeat split; (lia || done)|]);
    intros j c Hj; at_position j.
Qed.

Lemma main_run_invoked h x t : main_run h x t -> invoked_while_open t.
Proof.
  intros Hrun i g args r Hi.
  destruct Hrun; unfold resolved in *; at_position i;
    first [ exists 1%nat, h, "malloc"; split; [lia|]; split; [reflexivity|]
          | exists 2%nat, h, "printf"; split; [lia|]; split; [reflexivity|]
          | exists 3%nat, h, "free"; split; [lia|]; split; [reflexivity|] ];
    (split; [exists 0%nat, None, RTLD_LAZY; repeat split; (lia || done)|]);
    intros j c Hj; at_position j.
Qed.

(** ** Facts about the platform loader *)

Module PlatformFacts.
Import Platform.

Lemma handle_of_index_non_null i : handle_of_index i ≠ NULL.
Proof. unfold handle_of_index, NULL. lia. Qed.

Lemma index_of_handle_of_index i :
  index_of_handle (handle_of_index i) = Some i.
Proof.
  unfold index_of_handle, handle_of_index.
  destruct (Z.ltb_spec 0 (Z.of_nat (S i))); [|lia].
  f_equal. lia.
Qed.

(** Open fails exactly in the three situations of the specification. *)
Lemma open_null_iff path mode st :
  fst (open path mode st) = NULL <->
  find_target st path = None \/
  exists o, find_target st path = Some o /\
    (so_valid o = false \/
     (mode = RTLD_NOW /\ so_deps_resolved o = false)).
Proof.
  unfold open, loadable.
  destruct (find_target st path) as [o|]; simpl; [|by intuition].
  destruct (so_valid o) eqn:Hv, mode, (so_deps_resolved o) eqn:Hd; simpl.
  all: split.
  all: try (intros Hn; apply handle_of_index_non_null in Hn; done).
  all: try (intros _; right; exists o; split; [done|];
            first [by left | by right]).
  all: intros [?|(o' & ? & [?|[? ?]])]; simplify_eq; congruence.
Qed.

(** Open returns a fully constructed handle in state [Open], or fails
    with [LoadError] and leaves the handle table as it was. *)
Lemma open_valid_or_failure path mode st :
  let '(h, st') := open path mode st in
  (h = NULL /\ handles st' = handles st /\
   last_error st' = Some LoadError) \/
  (h ≠ NULL /\ last_error st' = None /\
   exists o, find_target st path = Some o /\
     lookup_handle st' h = Some (LibraryHandle o path mode Open) /\
     handles st' = handles st ++ [LibraryHandle o path mode Open]).
Proof.
  unfold open.
  destruct (find_target st path) as [o|]; [|by left].
  destruct (loadable mode o); [|by left].
  right. split; [apply handle_of_index_non_null|]. split; [done|].
  exists o. split; [done|]. split; [|done].
  unfold lookup_handle. rewrite index_of_handle_of_index. simpl.
  rewrite lookup_app_r by lia. by rewrite Nat.sub_diag.
Qed.

(** Resolve returns the address the export table gives for the name, or
    fails with an error and a null result. *)
Lemma resolve_valid_or_failure h s st :
  let '(a, st') := resolve h s st in
  (a = NULL /\ handles st' = handles st /\ is_Some (last_error st')) \/
  (a ≠ NULL /\ handles st' = handles st /\ last_error st' = None /\
   exists o x, live_object st h = Some o /\
     so_exports o !! s = Some x /\ a = Z.pos x).
Proof.
  unfold resolve.
  destruct (live_object st h) as [o|]; [|left; eauto].
  destruct (so_exports o !! s) as [x|] eqn:Hx; [|left; eauto].
  right. repeat split; [done|]. by exists o, x.
Qed.

(** Close moves an open handle to [Closed], or fails with
    [UseAfterCloseError] and changes no handle. *)
Lemma close_valid_or_failure h st :
  let '(c, st') := close h st in
  (c ≠ 0%Z /\ handles st' = handles st /\
   last_error st' = Some UseAfterCloseError) \/
  (c = 0%Z /\ state_of st h = Open /\ state_of st' h = Closed /\
   last_error st' = None).
Proof.
  unfold close, state_of, lookup_handle.
  destruct (index_of_handle h) as [i|] eqn:Hi; simpl; [|by left].
  destruct (handles st !! i) as [lh|] eqn:Hlh; simpl; [|by left].
  destruct (lh_state lh) eqn:Hs; simpl; try (by left).
  right.
  rewrite list_lookup_insert_eq by (by eapply lookup_lt_Some). done.
Qed.

(** Resolve of a name that the export table lacks. *)
Lemma resolve_absent st h o s :
  live_object st h = Some o -> so_exports o !! s = None ->
  fst (resolve h s st) = NULL /\
  last_error (snd (resolve h s st)) = Some SymbolNotFoundError /\
  fst (error (snd (resolve h s st))) =
    Some (diagnostic SymbolNotFoundError).
Proof.
  intros Ho Hs. unfold resolve, error. by rewrite Ho, Hs.
Qed.

(** Resolve of a name that the export table has. *)
Lemma resolve_present st h o s a :
  live_object st h = Some o -> so_exports o !! s = Some a ->
  fst (resolve h s st) = Z.pos a.
Proof. intros Ho Hs. unfold resolve. by rewrite Ho, Hs. Qed.

(** One loader operation keeps the object of every handle of the table,
    and never reopens a handle. *)
Lemma serve_lookup r st h lh :
  lookup_handle st h = Some lh ->
  exists lh',
    lookup_handle (serve r st) h = Some lh' /\
    lh_object lh' = lh_object lh /\
    (lh_state lh' = Open -> lh_state lh = Open).
Proof.
  unfold lookup_handle.
  destruct (index_of_handle h) as [i|]; simpl; [|done].
  intros Hlh. destruct r as [path mode|h2 s| |h2|f args]; simpl.
  - unfold open. destruct (find_target st path) as [o|]; [|by eauto].
    destruct (loadable mode o); [|by eauto]. simpl.
    exists lh. split; [|done].
    apply lookup_app_l_Some. done.
  - unfold resolve. destruct (live_object st h2) as [o|]; [|by eauto].
    destruct (so_exports o !! s); by eauto.
  - by eauto.
  - unfold close. destruct (index_of_handle h2) as [i2|]; [|by eauto].
    destruct (handles st !! i2) as [lh2|] eqn:Hlh2; [|by eauto].
    destruct (lh_state lh2) eqn:Hs2; simpl; try (by eauto).
    destruct (decide (i2 = i)) as [->|Hne].
    + exists (mark_closed lh2). simplify_eq.
      rewrite list_lookup_insert_eq by (by eapply lookup_lt_Some).
      done.
    + exists lh. by rewrite list_lookup_insert_ne.
  - by eauto.
Qed.

Lemma serve_all_lookup rs st h lh :
  lookup_handle st h = Some lh ->
  exists lh',
    lookup_handle (serve_all rs st) h = Some lh' /\
    lh_object lh' = lh_object lh /\
    (lh_state lh' = Open -> lh_state lh = Open).
Proof.
  revert st lh. induction rs as [|r rs IH]; intros st lh Hlh; simpl.
  - by eauto.
  - destruct (serve_lookup r st h lh Hlh) as (lh1 & H1 & Ho1 & Hs1).
    destruct (IH _ _ H1) as (lh2 & H2 & Ho2 & Hs2).
    exists lh2. split; [done|]. split; [congruence|auto].
Qed.

(** A handle that is still open after a run of loader operations
    stands for the same shared object as before. *)
Lemma live_object_stable rs st h o :
  live_object st h = Some o ->
  state_of (serve_all rs st) h = Open ->
  live_object (serve_all rs st) h = Some o.
Proof.
  unfold live_object, state_of.
  destruct (lookup_handle st h) as [lh|] eqn:Hlh; [|done].
  destruct (serve_all_lookup rs st h lh Hlh) as (lh' & -> & Ho & Hs).
  intros Hlive Hopen. rewrite Hopen.
  rewrite (Hs Hopen) in Hlive. congruence.
Qed.

End PlatformFacts.

(** The logs of the three processes. *)
Lemma libc_run :
  run_main Platform.libc_process =
  (Ok EXIT_SUCCESS,
   Process
     (Platform.with_handles
        [Platform.LibraryHandle
           (Platform.SharedObject true true Platform.libc_exports)
           None RTLD_LAZY Platform.Open]
        Platform.libc_process)
     (resolved 1 4096 8192 12288 None ++
      [EvCall 8192 (printf_args None) (Some (VInt 21));
       EvCall 4096 [VSize 3] (Some (VPtr 65536));
       EvCall 12288 [VPtr 65536] (Some VVoid)])).
Proof. vm_compute. reflexivity. Qed.

Lemma no_printf_run :
  exit_of Platform.no_printf_process = NullCall /\
  trace_of Platform.no_printf_process =
    resolved 1 4096 NULL 12288 None ++
    [EvCall NULL (printf_args None) None].
Proof. vm_compute. split; reflexivity. Qed.

Lemma no_self_run :
  exit_of Platform.no_self_process = Ok EXIT_FAILURE /\
  trace_of Platform.no_self_process = [EvDlopen None RTLD_LAZY NULL].
Proof. vm_compute. split; reflexivity. Qed.

Lemma libc_trace :
  trace_of Platform.libc_process =
    resolved 1 4096 8192 12288 None ++
    [EvCall 8192 (printf_args None) (Some (VInt 21));
     EvCall 4096 [VSize 3] (Some (VPtr 65536));
     EvCall 12288 [VPtr 65536] (Some VVoid)].
Proof. unfold trace_of. by rewrite libc_run. Qed.

Lemma libc_exit : exit_of Platform.libc_process = Ok EXIT_SUCCESS.
Proof. unfold exit_of. by rewrite libc_run. Qed.

Lemma libc_opened : opened Platform.libc_process ≠ NULL.
Proof. vm_compute. discriminate. Qed.

Lemma no_printf_opened : opened Platform.no_printf_process ≠ NULL.
Proof. vm_compute. discriminate. Qed.

Lemma no_self_opened : opened Platform.no_self_process = NULL.
Proof. reflexivity. Qed.

Lemma libc_resolves_non_null :
  resolves_non_null (trace_of Platform.libc_process).
Proof.
  intros h s r Hin. rewrite libc_trace in Hin.
  unfold resolved in Hin. simpl in Hin.
  repeat (apply elem_of_cons in Hin as [Hin|Hin]; simplify_eq);
    try discriminate.
  by apply elem_of_nil in Hin.
Qed.

(** ** The handle is never released *)

Section Release.
Context {St : Type} `{Loader St}.

(** No execution of [main] closes any handle. *)
Lemma main_never_closes (st : St) (h : ptr) :
  close_count h (trace_of st) = 0%nat.
Proof. eapply main_run_no_close, main_run_spec. Qed.

End Release.

(** C1 (not met by the code): the claim asks that the handle obtained
    from a successful open be closed exactly once before the program
    exits.  In the process whose own symbol table has all three symbols,
    [dlopen(NULL, RTLD_LAZY)] returns the handle 1, [main] runs to
    [EXIT_SUCCESS], and the log has no [dlclose]: the handle is closed
    zero times, so the log is not [closed_exactly_once]. *)
Theorem libc_handle_never_closed :
  exit_of Platform.libc_process = Ok EXIT_SUCCESS /\
  EvDlopen None RTLD_LAZY 1 ∈ trace_of Platform.libc_process /\
  close_count 1 (trace_of Platform.libc_process) = 0%nat /\
  ~ closed_exactly_once (trace_of Platform.libc_process).
Proof.
  assert (Hin : EvDlopen None RTLD_LAZY 1 ∈ trace_of Platform.libc_process).
  { rewrite libc_trace. apply list_elem_of_here. }
  split; [apply libc_exit|]. split; [done|].
  split; [apply main_never_closes|].
  intros Hc. specialize (Hc None RTLD_LAZY 1%Z).
  rewrite main_never_closes in Hc.
  assert (0 = 1)%nat; [|done]. by apply Hc.
Qed.

(** ** The diagnostic accessor *)

(** C2 (not met by the code): the claim asks that [dlerror] be called
    only in the error branch of a failed open or resolve.  In the process
    whose own symbol table has all three symbols no loader call fails and
    [main] returns [EXIT_SUCCESS]; yet the fifth entry of the log is a
    [dlerror], which follows the successful [dlsym] of "free" and returns
    the null diagnostic, and that null is handed to [printf] for its
    [%s]: the accessor is called on a success path. *)
Theorem dlerror_on_success_path :
  exit_of Platform.libc_process = Ok EXIT_SUCCESS /\
  Forall (fun e => failed e = false) (trace_of Platform.libc_process) /\
  trace_of Platform.libc_process !! 3%nat =
    Some (EvDlsym 1 "free" 12288) /\
  trace_of Platform.libc_process !! 4%nat = Some (EvDlerror None) /\
  trace_of Platform.libc_process !! 5%nat =
    Some (EvCall 8192 [VStr hello_fmt; VChars None] (Some (VInt 21))) /\
  ~ diagnostic_in_error_branch (trace_of Platform.libc_process).
Proof.
  split; [apply libc_exit|].
  rewrite libc_trace. split.
  { unfold resolved. simpl. repeat constructor. }
  split; [reflexivity|]. split; [reflexivity|]. split; [reflexivity|].
  intros Hc. destruct (Hc 4%nat None) as (j & x & Hi & Hj & Hf).
  - reflexivity.
  - by simplify_eq/=.
Qed.

(** X8: where the accessor sits in every execution.  When [dlopen]
    fails, [dlerror] is never called; when [dlopen] succeeds, [dlerror] is
    called exactly once and without any test: directly after the third
    [dlsym] and before the first call through a resolved pointer, whatever
    the three resolutions returned.  Every later entry of the log is a
    call. *)
Theorem dlerror_once_after_resolves {St : Type} `{Loader St} (st : St) :
  (opened st = NULL -> forall msg, EvDlerror msg ∉ trace_of st) /\
  (opened st ≠ NULL ->
   exists m p f e r calls,
     trace_of st =
       resolved (opened st) m p f e ++
       EvCall p (printf_args e) r :: calls /\
     Forall is_call calls).
Proof.
  pose proof (main_run_spec st) as Hrun. split.
  - intros Hn msg Hin.
    destruct (main_run_failure _ _ _ Hrun Hn) as [_ Ht].
    rewrite Ht in Hin.
    apply elem_of_cons in Hin as [Hin|Hin]; [done|].
    by apply elem_of_nil in Hin.
  - intros Hn. by apply (main_run_resolved _ _ _ Hrun).
Qed.

Lemma dlerror_once_after_resolves_witness :
  (forall msg, EvDlerror msg ∉ trace_of Platform.no_self_process) /\
  (exists m p f e r calls,
     trace_of Platform.libc_process =
       resolved (opened Platform.libc_process) m p f e ++
       EvCall p (printf_args e) r :: calls /\
     Forall is_call calls).
Proof.
  split.
  - apply (proj1 (dlerror_once_after_resolves Platform.no_self_process)).
    reflexivity.
  - apply (proj2 (dlerror_once_after_resolves Platform.libc_process)).
    vm_compute. discriminate.
Defined.

(** ** Unchecked resolutions *)

(** C3 (not met by the code): the claim asks that every [dlsym] result be
    checked before use.  In the process whose own symbol table lacks
    [printf], the handle 1 is live and its export table has no [printf];
    [dlsym] returns [NULL]; [main] stores the result without a test and
    calls through it on line 25. *)
Theorem null_printf_is_called :
  (exists o,
     Platform.live_object
       (snd (Platform.open None RTLD_LAZY Platform.no_printf_process)) 1
     = Some o /\
     Platform.so_exports o !! "printf" = None) /\
  EvDlsym 1 "printf" NULL ∈ trace_of Platform.no_printf_process /\
  EvCall NULL (printf_args None) None
    ∈ trace_of Platform.no_printf_process /\
  exit_of Platform.no_printf_process = NullCall /\
  ~ calls_non_null (trace_of Platform.no_printf_process).
Proof.
  destruct no_printf_run as [Hx Ht]. rewrite Ht, Hx.
  split.
  { eexists. split; [vm_compute; reflexivity|]. vm_compute. reflexivity. }
  split; [unfold resolved; set_solver|].
  split; [unfold resolved; set_solver|].
  split; [done|].
  intros Hc. apply (Hc NULL (printf_args None) None); [|done].
  unfold resolved. set_solver.
Qed.

(** ** Failure of Open and Resolve *)

(** C4: each of Open, Resolve and Close either returns a valid value or
    signals a failure, never both: a failed Open returns [NULL], records
    [LoadError] and leaves the handle table untouched, a successful one
    returns a non-null handle whose table entry is complete and in state
    [Open]; a failed Resolve returns [NULL] with an error recorded, a
    successful one returns the non-null address of the export table; Close
    succeeds on an open handle and fails otherwise, changing nothing.  In
    the program, a null result of [dlopen] is followed by nothing: the log
    is the [dlopen] alone and [main] returns [EXIT_FAILURE]. *)
Theorem valid_value_or_failure :
  (forall path mode st,
     let '(h, st') := Platform.open path mode st in
     (h = NULL /\ Platform.handles st' = Platform.handles st /\
      Platform.last_error st' = Some Platform.LoadError) \/
     (h ≠ NULL /\ Platform.last_error st' = None /\
      exists o, Platform.find_target st path = Some o /\
        Platform.lookup_handle st' h =
          Some (Platform.LibraryHandle o path mode Platform.Open) /\
        Platform.handles st' =
          Platform.handles st ++
          [Platform.LibraryHandle o path mode Platform.Open])) /\
  (forall h s st,
     let '(a, st') := Platform.resolve h s st in
     (a = NULL /\ Platform.handles st' = Platform.handles st /\
      is_Some (Platform.last_error st')) \/
     (a ≠ NULL /\ Platform.handles st' = Platform.handles st /\
      Platform.last_error st' = None /\
      exists o x, Platform.live_object st h = Some o /\
        Platform.so_exports o !! s = Some x /\ a = Z.pos x)) /\
  (forall h st,
     let '(c, st') := Platform.close h st in
     (c ≠ 0%Z /\ Platform.handles st' = Platform.handles st /\
      Platform.last_error st' = Some Platform.UseAfterCloseError) \/
     (c = 0%Z /\ Platform.state_of st h = Platform.Open /\
      Platform.state_of st' h = Platform.Closed /\
      Platform.last_error st' = None)) /\
  (forall (St : Type) (L : Loader St) (st : St),
     opened st = NULL ->
     exit_of st = Ok EXIT_FAILURE /\
     trace_of st = [EvDlopen None RTLD_LAZY NULL]).
Proof.
  split; [exact PlatformFacts.open_valid_or_failure|].
  split; [exact PlatformFacts.resolve_valid_or_failure|].
  split; [exact PlatformFacts.close_valid_or_failure|].
  intros St L st Hn. eapply main_run_failure; [apply main_run_spec|done].
Qed.

Lemma valid_value_or_failure_witness :
  opened Platform.no_self_process = NULL /\
  exit_of Platform.no_self_process = Ok EXIT_FAILURE /\
  trace_of Platform.no_self_process = [EvDlopen None RTLD_LAZY NULL].
Proof.
  split; [reflexivity|].
  apply (proj2 (proj2 (proj2 valid_value_or_failure))).
  reflexivity.
Defined.

(** C5: Open fails (returns no handle and records [LoadError]) exactly
    when the target cannot be found, is not a valid shared object, or has
    unresolved dependencies under [RTLD_NOW]; and in every execution in
    which the open of the process's own symbol table fails, [main] returns
    [EXIT_FAILURE] and its log is the [dlopen] alone: no resolve, no call,
    no close. *)
Theorem open_failure :
  (forall path mode st,
     fst (Platform.open path mode st) = NULL <->
     Platform.find_target st path = None \/
     exists o, Platform.find_target st path = Some o /\
       (Platform.so_valid o = false \/
        (mode = RTLD_NOW /\ Platform.so_deps_resolved o = false))) /\
  (forall path mode st,
     fst (Platform.open path mode st) = NULL ->
     Platform.last_error (snd (Platform.open path mode st)) =
       Some Platform.LoadError) /\
  (forall (St : Type) (L : Loader St) (st : St),
     opened st = NULL ->
     exit_of st = Ok EXIT_FAILURE /\
     trace_of st = [EvDlopen None RTLD_LAZY NULL]).
Proof.
  split; [exact PlatformFacts.open_null_iff|]. split.
  - intros path mode st Hn.
    pose proof (PlatformFacts.open_valid_or_failure path mode st) as Ho.
    destruct (Platform.open path mode st) as [h st']. simpl in *.
    destruct Ho as [(_ & _ & He)|(Hh & _)]; [done|]. by destruct Hh.
  - intros St L st Hn. eapply main_run_failure; [apply main_run_spec|done].
Qed.

Lemma open_failure_witness :
  fst (Platform.open None RTLD_LAZY Platform.no_self_process) = NULL /\
  Platform.last_error
    (snd (Platform.open None RTLD_LAZY Platform.no_self_process)) =
    Some Platform.LoadError /\
  exit_of Platform.no_self_process = Ok EXIT_FAILURE /\
  trace_of Platform.no_self_process = [EvDlopen None RTLD_LAZY NULL].
Proof.
  split; [reflexivity|]. split.
  - apply (proj1 (proj2 open_failure)). reflexivity.
  - apply (proj2 (proj2 open_failure)). reflexivity.
Defined.

(** ** Resolution of exported symbols *)

(** C6: for a live handle and a name of its export table, Resolve returns
    the table's address, which is not [NULL]; and a second Resolve of the
    same name on the same handle, after any sequence of loader operations
    that leaves the handle open, returns the same address. *)
Theorem resolve_deterministic
  (st : Platform.loader) (h : ptr) (o : Platform.shared_object)
  (s : string) (a : positive) (rs : list Platform.request) :
  Platform.live_object st h = Some o ->
  Platform.so_exports o !! s = Some a ->
  Platform.state_of
    (Platform.serve_all rs (snd (Platform.resolve h s st))) h
    = Platform.Open ->
  fst (Platform.resolve h s st) = Z.pos a /\
  fst (Platform.resolve h s st) ≠ NULL /\
  fst (Platform.resolve h s
         (Platform.serve_all rs (snd (Platform.resolve h s st))))
    = fst (Platform.resolve h s st).
Proof.
  intros Ho Hs Hopen.
  rewrite (PlatformFacts.resolve_present st h o s a Ho Hs).
  split; [done|]. split; [done|].
  apply (PlatformFacts.resolve_present _ h o s a); [|done].
  apply (PlatformFacts.live_object_stable
           (Platform.RResolve h s :: rs) st h o Ho Hopen).
Qed.

Lemma resolve_deterministic_witness :
  let st := snd (Platform.open None RTLD_LAZY Platform.libc_process) in
  let rs := [Platform.RResolve 1 "malloc"; Platform.RError;
             Platform.ROpen None RTLD_NOW; Platform.RClose 2;
             Platform.RResolve 2 "free"] in
  fst (Platform.resolve 1 "printf" st) = 8192%Z /\
  fst (Platform.resolve 1 "printf" st) ≠ NULL /\
  fst (Platform.resolve 1 "printf"
         (Platform.serve_all rs (snd (Platform.resolve 1 "printf" st))))
    = fst (Platform.resolve 1 "printf" st).
Proof.
  intros st rs.
  apply (resolve_deterministic st 1
           (Platform.SharedObject true true Platform.libc_exports)
           "printf" 8192%positive rs).
  - vm_compute. reflexivity.
  - vm_compute. reflexivity.
  - vm_compute. reflexivity.
Defined.

(** ** Ordering of the operations *)

(** C7: in every execution, each resolve against a handle comes after the
    open that returned the handle (a successful one) and before any close
    of that handle. *)
Theorem resolve_between_open_and_close {St : Type} `{Loader St} (st : St) :
  operations_ordered (trace_of st).
Proof. eapply main_run_ordered, main_run_spec. Qed.

(** C8: in every execution, each call goes through an address that was
    resolved from a handle which was opened before and is not closed
    before the call: no resolved symbol is invoked after its handle was
    closed. *)
Theorem calls_while_handle_open {St : Type} `{Loader St} (st : St) :
  invoked_while_open (trace_of st).
Proof. eapply main_run_invoked, main_run_spec. Qed.

(** ** Exit status *)

(** C9 (counterexample): in the process whose own symbol table lacks
    [printf], [dlopen] succeeds and [main] does not return
    [EXIT_SUCCESS]: it calls through the null result of [dlsym]. *)
Lemma open_succeeds_without_exit_success :
  opened Platform.no_printf_process ≠ NULL /\
  EvDlsym (opened Platform.no_printf_process) "printf" NULL
    ∈ trace_of Platform.no_printf_process /\
  exit_of Platform.no_printf_process ≠ Ok EXIT_SUCCESS.
Proof.
  destruct no_printf_run as [Hx Ht]. rewrite Hx, Ht.
  split; [apply no_printf_opened|].
  split; [|done].
  change (opened Platform.no_printf_process) with 1%Z.
  unfold resolved. set_solver.
Qed.

(** C9 (amended): [main] returns [EXIT_FAILURE] if and only if [dlopen]
    returns a null handle, and it returns [EXIT_SUCCESS] in every
    execution in which [dlopen] succeeds and the three resolutions are
    not null. *)
Theorem exit_status_of_main {St : Type} `{Loader St} (st : St) :
  (exit_of st = Ok EXIT_FAILURE <-> opened st = NULL) /\
  (opened st ≠ NULL -> resolves_non_null (trace_of st) ->
   exit_of st = Ok EXIT_SUCCESS).
Proof.
  pose proof (main_run_spec st) as Hrun. split.
  - by apply (main_run_exit_failure _ _ _ Hrun).
  - by apply (main_run_success _ _ _ Hrun).
Qed.

Lemma exit_status_of_main_witness :
  opened Platform.libc_process ≠ NULL /\
  resolves_non_null (trace_of Platform.libc_process) /\
  exit_of Platform.libc_process = Ok EXIT_SUCCESS.
Proof.
  split; [apply libc_opened|]. split; [apply libc_resolves_non_null|].
  apply (proj2 (exit_status_of_main Platform.libc_process)).
  - apply libc_opened.
  - apply libc_resolves_non_null.
Defined.

(** ** Calls through resolved pointers *)

(** C10: if the three resolutions are not null, every call of the program
    goes through a pointer that is not null; the program has no test
    between resolution and call, so whenever a resolution returned [NULL]
    the program does call through [NULL]. *)
Theorem calls_through_non_null {St : Type} `{Loader St} (st : St) :
  (resolves_non_null (trace_of st) -> calls_non_null (trace_of st)) /\
  (forall h s,
     EvDlsym h s NULL ∈ trace_of st ->
     exists args, EvCall NULL args None ∈ trace_of st).
Proof.
  pose proof (main_run_spec st) as Hrun. split.
  - by apply (main_run_calls _ _ _ Hrun).
  - intros h s. by apply (main_run_null_call _ _ _ _ _ Hrun).
Qed.

Lemma calls_through_non_null_witness :
  resolves_non_null (trace_of Platform.libc_process) /\
  calls_non_null (trace_of Platform.libc_process).
Proof.
  split; [apply libc_resolves_non_null|].
  apply (proj1 (calls_through_non_null Platform.libc_process)).
  apply libc_resolves_non_null.
Defined.


(** ** Further properties of [main] *)

(** What a log of [main] holds besides its first entry: no second open
    and no close. *)
Lemma main_run_single_open h x t :
  main_run h x t ->
  exists rest,
    t = EvDlopen None RTLD_LAZY h :: rest /\
    Forall (fun e => match e with
                     | EvDlopen _ _ _ | EvDlclose _ _ => False
                     | _ => True
                     end) rest.
Proof.
  destruct 1; eexists; (split; [reflexivity|]); repeat constructor.
Qed.

Lemma main_run_bound h x t i g args r :
  main_run h x t ->
  t !! i = Some (EvCall g args r) ->
  (i = 5%nat /\ t !! 2%nat = Some (EvDlsym h "printf" g) /\
   exists e, t !! 4%nat = Some (EvDlerror e) /\ args = printf_args e) \/
  (i = 6%nat /\ t !! 1%nat = Some (EvDlsym h "malloc" g) /\
   args = [VSize 3]) \/
  (i = 7%nat /\ t !! 3%nat = Some (EvDlsym h "free" g) /\
   exists m a,
     t !! 1%nat = Some (EvDlsym h "malloc" m) /\
     t !! 6%nat = Some (EvCall m [VSize 3] (Some a)) /\ args = [a]).
Proof.
  intros Hrun Hi.
  destruct Hrun; unfold resolved in *; at_position i;
    first
      [ left; split; [reflexivity|]; split; [reflexivity|];
        eexists; split; reflexivity
      | right; left; split; [reflexivity|]; split; reflexivity
      | right; right; split; [reflexivity|]; split; [reflexivity|];
        do 2 eexists; split; [reflexivity|]; split; reflexivity ].
Qed.

Lemma main_run_printf_call h x t g args r :
  main_run h x t ->
  t !! 5%nat = Some (EvCall g args r) ->
  exists e,
    t !! 2%nat = Some (EvDlsym h "printf" g) /\
    t !! 4%nat = Some (EvDlerror e) /\
    args = [VStr hello_fmt; VChars e].
Proof.
  intros Hrun Hi.
  destruct Hrun; unfold resolved in *; simpl in *; simplify_eq;
    eexists; repeat split.
Qed.

Lemma main_run_free_call h x t g args r :
  main_run h x t ->
  t !! 7%nat = Some (EvCall g args r) ->
  exists m a,
    t !! 1%nat = Some (EvDlsym h "malloc" m) /\
    t !! 3%nat = Some (EvDlsym h "free" g) /\
    t !! 6%nat = Some (EvCall m [VSize 3] (Some a)) /\
    args = [a].
Proof.
  intros Hrun Hi.
  destruct Hrun; unfold resolved in *; simpl in *; simplify_eq;
    do 2 eexists; repeat split.
Qed.

Lemma main_run_outcome h x t :
  main_run h x t ->
  (x = Ok EXIT_SUCCESS <-> h ≠ NULL /\ resolves_non_null t) /\
  (x = NullCall <-> h ≠ NULL /\ exists h' s, EvDlsym h' s NULL ∈ t).
Proof.
  intros Hrun. split; split.
  - intros ->. inversion Hrun; subst. split; [done|].
    intros h' s r' Hin. unfold resolved in Hin. simpl in Hin.
    repeat (apply elem_of_cons in Hin as [Hin|Hin]; simplify_eq);
      try done.
    by apply elem_of_nil in Hin.
  - intros [Hh Hr]. by apply (main_run_success _ _ _ Hrun).
  - intros ->. inversion Hrun; subst; (split; [done|]).
    + exists h, "printf". unfold resolved. set_solver.
    + exists h, "malloc". unfold resolved. set_solver.
    + exists h, "free". unfold resolved. set_solver.
  - intros [Hh (h' & s & Hin)].
    destruct Hrun; try done. exfalso.
    unfold resolved in Hin. simpl in Hin.
    repeat (apply elem_of_cons in Hin as [Hin|Hin]; simplify_eq);
      try done.
    by apply elem_of_nil in Hin.
Qed.



(** X1: In every execution the log starts with the one [dlopen] of the
    program, on the null path and in mode [RTLD_LAZY]; nothing after it
    is an open or a close. *)
Theorem main_opens_self_once {St : Type} `{Loader St} (st : St) :
  exists rest,
    trace_of st = EvDlopen None RTLD_LAZY (opened st) :: rest /\
    Forall (fun e => match e with
                     | EvDlopen _ _ _ | EvDlclose _ _ => False
                     | _ => True
                     end) rest.
Proof. eapply main_run_single_open, main_run_spec. Qed.

(** X2: every call of the program is the sixth, seventh or eighth entry
    of the log, and each goes through the address that [dlsym] returned,
    on the handle of the program's [dlopen], for its own name: the sixth
    entry through the result for "printf", with the format string and the
    diagnostic; the seventh through the result for "malloc", with size 3;
    the eighth through the result for "free", with the value the seventh
    returned.  The detour through the array [libc_symbols] mixes no slots
    up. *)
Theorem calls_bound_to_names {St : Type} `{Loader St} (st : St)
  (i : nat) (g : ptr) (args : list value) (r : option value) :
  trace_of st !! i = Some (EvCall g args r) ->
  (i = 5%nat /\
   trace_of st !! 2%nat = Some (EvDlsym (opened st) "printf" g) /\
   exists e,
     trace_of st !! 4%nat = Some (EvDlerror e) /\ args = printf_args e) \/
  (i = 6%nat /\
   trace_of st !! 1%nat = Some (EvDlsym (opened st) "malloc" g) /\
   args = [VSize 3]) \/
  (i = 7%nat /\
   trace_of st !! 3%nat = Some (EvDlsym (opened st) "free" g) /\
   exists m a,
     trace_of st !! 1%nat = Some (EvDlsym (opened st) "malloc" m) /\
     trace_of st !! 6%nat = Some (EvCall m [VSize 3] (Some a)) /\
     args = [a]).
Proof. eapply main_run_bound, main_run_spec. Qed.

Lemma calls_bound_to_names_witness :
  trace_of Platform.libc_process !! 6%nat =
    Some (EvCall 4096 [VSize 3] (Some (VPtr 65536))) /\
  trace_of Platform.libc_process !! 1%nat =
    Some (EvDlsym (opened Platform.libc_process) "malloc" 4096).
Proof.
  assert (Hi : trace_of Platform.libc_process !! 6%nat =
               Some (EvCall 4096 [VSize 3] (Some (VPtr 65536)))).
  { rewrite libc_trace. reflexivity. }
  split; [exact Hi|].
  destruct (calls_bound_to_names Platform.libc_process _ _ _ _ Hi)
    as [(Hn & _)|[(_ & Hm & _)|(Hn & _)]].
  - discriminate Hn.
  - exact Hm.
  - discriminate Hn.
Defined.

(** X3: The first call of the program, the sixth entry of the log, goes
    through the result of [dlsym] for "printf" and receives the format
    string of line 25 together with exactly what the [dlerror] just before
    it returned, null or not. *)
Theorem printf_receives_diagnostic {St : Type} `{Loader St} (st : St)
  (g : ptr) (args : list value) (r : option value) :
  trace_of st !! 5%nat = Some (EvCall g args r) ->
  exists e,
    trace_of st !! 2%nat = Some (EvDlsym (opened st) "printf" g) /\
    trace_of st !! 4%nat = Some (EvDlerror e) /\
    args = [VStr hello_fmt; VChars e].
Proof. eapply main_run_printf_call, main_run_spec. Qed.

Lemma printf_receives_diagnostic_witness :
  trace_of Platform.libc_process !! 5%nat =
    Some (EvCall 8192 (printf_args None) (Some (VInt 21))) /\
  exists e,
    trace_of Platform.libc_process !! 2%nat =
      Some (EvDlsym (opened Platform.libc_process) "printf" 8192) /\
    trace_of Platform.libc_process !! 4%nat = Some (EvDlerror e) /\
    printf_args None = [VStr hello_fmt; VChars e].
Proof.
  assert (Hi : trace_of Platform.libc_process !! 5%nat =
               Some (EvCall 8192 (printf_args None) (Some (VInt 21)))).
  { rewrite libc_trace. reflexivity. }
  split; [exact Hi|].
  exact (printf_receives_diagnostic Platform.libc_process _ _ _ Hi).
Defined.

(** X4: When the program reaches its third call, the eighth entry of the
    log, that call goes through the result of [dlsym] for "free" and its
    one argument is the value that the call through the result of [dlsym]
    for "malloc", with size 3, returned just before. *)
Theorem free_receives_malloc_result {St : Type} `{Loader St} (st : St)
  (g : ptr) (args : list value) (r : option value) :
  trace_of st !! 7%nat = Some (EvCall g args r) ->
  exists m a,
    trace_of st !! 1%nat = Some (EvDlsym (opened st) "malloc" m) /\
    trace_of st !! 3%nat = Some (EvDlsym (opened st) "free" g) /\
    trace_of st !! 6%nat = Some (EvCall m [VSize 3] (Some a)) /\
    args = [a].
Proof. eapply main_run_free_call, main_run_spec. Qed.

Lemma free_receives_malloc_result_witness :
  trace_of Platform.libc_process !! 7%nat =
    Some (EvCall 12288 [VPtr 65536] (Some VVoid)) /\
  exists m a,
    trace_of Platform.libc_process !! 1%nat =
      Some (EvDlsym (opened Platform.libc_process) "malloc" m) /\
    trace_of Platform.libc_process !! 3%nat =
      Some (EvDlsym (opened Platform.libc_process) "free" 12288) /\
    trace_of Platform.libc_process !! 6%nat =
      Some (EvCall m [VSize 3] (Some a)) /\
    [VPtr 65536] = [a].
Proof.
  assert (Hi : trace_of Platform.libc_process !! 7%nat =
               Some (EvCall 12288 [VPtr 65536] (Some VVoid))).
  { rewrite libc_trace. reflexivity. }
  split; [exact Hi|].
  exact (free_receives_malloc_result Platform.libc_process _ _ _ Hi).
Defined.

(** X5: The outcome of [main] is decided by the results of [dlopen] and of
    the three [dlsym] alone: it returns [EXIT_SUCCESS] exactly when
    [dlopen] succeeds and no resolution is null, and it runs into a call
    through a null pointer exactly when [dlopen] succeeds and some
    resolution is null. *)
Theorem outcome_of_main {St : Type} `{Loader St} (st : St) :
  (exit_of st = Ok EXIT_SUCCESS <->
   opened st ≠ NULL /\ resolves_non_null (trace_of st)) /\
  (exit_of st = NullCall <->
   opened st ≠ NULL /\ exists h s, EvDlsym h s NULL ∈ trace_of st).
Proof. eapply main_run_outcome, main_run_spec. Qed.




